(** * Mex::Utils (lib/util/Mex/Utils.h): a shallow embedding

    The helpers of [struct Utils] are embedded as functions into an
    outcome monad with three channels: a normal return, a thrown
    [std::invalid_argument], and a failed run-time assertion ([mxAssert]
    of the MEX API, [eigen_assert] of Eigen).  Assertions are modelled as
    checked, the configuration in which those source lines have an effect.

    Vectors of Eigen ([Eigen::VectorXi]) are lists of integers; their
    [Index]-typed sizes are signed, so sizes and block lengths are in [Z]
    and a negative block length is representable, as in the source. *)

From Stdlib Require Import ZArith String DecimalString.
From stdpp Require Import base numbers list strings.

Local Open Scope Z_scope.

(** ** Outcomes *)

Inductive exception :=
  | invalid_argument (what : string).

Inductive assertion :=
  | mx_assertion (message : string)   (* mxAssert(test, message) *)
  | eigen_block_range                 (* Block: start, length within the vector *)
  | eigen_index_range                 (* operator(): index within the vector *)
  | eigen_size_mismatch.              (* CwiseBinaryOp: equal sizes *)

Inductive outcome (A : Type) :=
  | Return (a : A)
  | Throw (e : exception)
  | Abort (f : assertion).
Arguments Return {A} a.
Arguments Throw {A} e.
Arguments Abort {A} f.

#[export] Instance outcome_ret : MRet outcome := λ A, @Return A.
#[export] Instance outcome_bind : MBind outcome := λ A B k m,
  match m with
  | Return a => k a
  | Throw e => Throw e
  | Abort f => Abort f
  end.

(** A [for (int i = 0; i < n; i++)] loop whose body may fail: the body is
    run on the indices in order and the first failure ends the loop. *)
Fixpoint for_each {S : Type} (body : nat → S → outcome S)
    (indices : list nat) (s : S) : outcome S :=
  match indices with
  | [] => Return s
  | i :: rest => s' ← body i s; for_each body rest s'
  end.

(** ** C++ [int] and [std::to_string] *)

Definition int_min : Z := - 2 ^ 31.
Definition int_max : Z := 2 ^ 31 - 1.

(** Conversion of an integer value to [int] (modular on the supported
    platforms): used where a [size_t]/[mwSize] is stored into an [int]. *)
Definition to_int (z : Z) : Z := (z + 2 ^ 31) `mod` 2 ^ 32 - 2 ^ 31.

(** [std::to_string(int)]: the decimal digits, with a leading minus sign
    for negative values. *)
Definition to_string (z : Z) : string := NilZero.string_of_int (Z.to_int z).

(** ** The part of Eigen the helpers use *)

Module Eigen.

Abbreviation VectorXi := (list Z).

(** [Eigen::Dynamic], the "any size" marker of Eigen 3. *)
Definition Dynamic : Z := -1.

Definition size (v : VectorXi) : Z := Z.of_nat (length v).

(** [v.segment(start, n)]: the block constructor asserts
    [start >= 0 && n >= 0 && start <= v.size() - n]. *)
Definition segment (v : VectorXi) (start n : Z) : outcome VectorXi :=
  if bool_decide (0 ≤ start ∧ 0 ≤ n ∧ start ≤ size v - n)
  then Return (take (Z.to_nat n) (drop (Z.to_nat start) v))
  else Abort eigen_block_range.

(** [v.head(n)] is the block that starts at 0, [v.tail(n)] the one that
    starts at [v.size() - n]. *)
Definition head (v : VectorXi) (n : Z) : outcome VectorXi := segment v 0 n.
Definition tail (v : VectorXi) (n : Z) : outcome VectorXi :=
  segment v (size v - n) n.

(** [v(i)], read and write. *)
Definition coeff (v : VectorXi) (i : nat) : outcome Z :=
  match v !! i with
  | Some x => Return x
  | None => Abort eigen_index_range
  end.

Definition set_coeff (v : VectorXi) (i : nat) (x : Z) : outcome VectorXi :=
  if bool_decide (i < length v)%nat then Return (<[i:=x]> v)
  else Abort eigen_index_range.

(** Coefficient-wise binary operations assert that both sides have the
    same size. *)
Definition cwise (op : Z → Z → Z) (a b : VectorXi) : outcome VectorXi :=
  if bool_decide (size a = size b) then Return (zip_with op a b)
  else Abort eigen_size_mismatch.

Definition cwiseMin : VectorXi → VectorXi → outcome VectorXi := cwise Z.min.
Definition cwiseMax : VectorXi → VectorXi → outcome VectorXi := cwise Z.max.

(** [a == b] is [a.cwiseEqual(b).all()]. *)
Definition equal (a b : VectorXi) : outcome bool :=
  if bool_decide (size a = size b)
  then Return (forallb (λ p, fst p =? snd p) (zip a b))
  else Abort eigen_size_mismatch.

(** [v.isZero()] on integers: every coefficient equals 0. *)
Definition isZero (v : VectorXi) : bool := forallb (λ x, x =? 0) v.

(** [VectorXi v(n)]: [n] coefficients of unspecified content; the model
    fills them with 0. *)
Definition make (n : Z) : VectorXi := replicate (Z.to_nat n) 0.

End Eigen.

(** ** The part of the MEX array API the helpers use *)

Inductive mxClassID :=
  | mxUNKNOWN_CLASS | mxCELL_CLASS | mxSTRUCT_CLASS | mxLOGICAL_CLASS
  | mxCHAR_CLASS | mxVOID_CLASS | mxDOUBLE_CLASS | mxSINGLE_CLASS
  | mxINT8_CLASS | mxUINT8_CLASS | mxINT16_CLASS | mxUINT16_CLASS
  | mxINT32_CLASS | mxUINT32_CLASS | mxINT64_CLASS | mxUINT64_CLASS
  | mxFUNCTION_CLASS.

#[export] Instance mxClassID_eq_dec : EqDecision mxClassID.
Proof. solve_decision. Defined.

(** What the helpers can observe of an [mxArray]: its class, whether it is
    sparse, its extents and the address of its data.  The extents are
    values of type [mwSize], which is [size_t] with the large-array
    dimensions of 64-bit MEX builds (and [int] with the compatible ones).
    [mxGetData] is 0, the null pointer, for an array without data. *)
Record mxArray := {
  mxGetClassID : mxClassID;
  mxIsSparse : bool;
  mxGetDimensions : list Z;
  mxGetData : Z;
}.

Definition mxGetNumberOfDimensions (array : mxArray) : Z :=
  Z.of_nat (length (mxGetDimensions array)).

(** [mxGetM]: the first extent; [mxGetN]: the product of the others. *)
Definition mxGetM (array : mxArray) : Z :=
  match mxGetDimensions array with
  | [] => 0
  | m :: _ => m
  end.
Definition mxGetN (array : mxArray) : Z :=
  match mxGetDimensions array with
  | [] => 0
  | _ :: rest => foldr Z.mul 1 rest
  end.

(** [mxAssert(test, message)]. *)
Definition mxAssert (test : bool) (message : string) : outcome unit :=
  if test then Return tt else Abort (mx_assertion message).

(** Element types and typed pointers: a [Scalar*] is an address tagged
    with its element type; the cast [(Scalar* ) p] keeps the address. *)
Inductive scalar := c_double | c_float | c_int | c_bool.

Record pointer (Scalar : scalar) := { address : Z }.
Arguments address {Scalar} p.

Definition cast (Scalar : scalar) (p : Z) : pointer Scalar := {| address := p |}.
Definition null (Scalar : scalar) : pointer Scalar := cast Scalar 0.

(** [Traits<Scalar>::isValidArray] is declared outside this header: the
    helpers are stated over any such predicate. *)
Class Traits (Scalar : scalar) := { isValidArray : mxArray → bool }.
Arguments isValidArray Scalar {_} array.

(** Modelled from the spec: [Traits<double>::isValidArray], which lives in
    a header that is not part of these sources; "is this array's runtime
    element type compatible with native type T", here for [double]. *)
Definition Traits_double : Traits c_double :=
  {| isValidArray := λ array, bool_decide (mxGetClassID array = mxDOUBLE_CLASS) |}.

(** ** struct Utils *)

Module Utils.
Import Eigen.

(** [std::copy(first, first + n, dest.data())] from [mwSize] values
    into [int] storage: each value is converted to [int]. *)
Definition std_copy (first : list Z) (n : nat) (dest : VectorXi) : VectorXi :=
  (to_int <$> take n first) ++ drop n dest.

(** Lines 38-48. *)
Definition getDimensions (array : mxArray) : outcome VectorXi :=
  _ ← mxAssert (negb (mxIsSparse array)) "Array must be dense.";
  let numDims := mxGetNumberOfDimensions array in
  let outDims := make numDims in
  let dims := mxGetDimensions array in
  Return (std_copy dims (Z.to_nat numDims) outDims).

(** Lines 53-63.  One iteration of the loop: both reads are guarded by
    the size tests of the conditional expressions. *)
Definition expandSliceDims_body (sliceDimsA sliceDimsB : VectorXi)
    (i : nat) (sliceDims : VectorXi) : outcome VectorXi :=
  a ← (if bool_decide (Z.of_nat i < size sliceDimsA)
       then coeff sliceDimsA i else Return 1);
  b ← (if bool_decide (Z.of_nat i < size sliceDimsB)
       then coeff sliceDimsB i else Return 1);
  set_coeff sliceDims i (Z.max a b).

Definition expandSliceDims (sliceDimsA sliceDimsB : VectorXi)
    : outcome VectorXi :=
  let sliceDims := make (Z.max (size sliceDimsA) (size sliceDimsB)) in
  for_each (expandSliceDims_body sliceDimsA sliceDimsB)
    (seq 0 (length sliceDims)) sliceDims.

(** Lines 71-75: the overload on full dimension vectors.  Both
    arguments are evaluated before the call; they fail alike, so their
    order does not show in the outcome. *)
Definition expandSlices (dimsA dimsB : VectorXi) : outcome VectorXi :=
  a ← tail dimsA (size dimsA - 2);
  b ← tail dimsB (size dimsB - 2);
  expandSliceDims a b.

(** Lines 79-95.  [sHead] and [sTail] are initialised before the size
    test; [&&] and [||] evaluate their right operand only when needed. *)
Definition isValidSlice (slice sliceMins sliceMaxs : VectorXi)
    : outcome bool :=
  let sliceDims := size sliceMins in
  sHead ← head slice sliceDims;
  sTail ← tail slice (size slice - sliceDims);
  if bool_decide (size slice < sliceDims) then Return false
  else if bool_decide (size sHead = 0) then Return (isZero sTail)
  else
    m ← cwiseMin sliceMins sHead;
    aboveMins ← equal m sliceMins;
    if (aboveMins : bool) then
      M ← cwiseMax sliceMaxs sHead;
      belowMaxs ← equal M sliceMaxs;
      if (belowMaxs : bool)
      then Return (bool_decide (size slice = sliceDims) || isZero sTail)
      else Return false
    else Return false.

(** Lines 97-113: the overloads for [mxArray*] and [const mxArray*]. *)
Definition checkArrayType (Scalar : scalar) `{!Traits Scalar}
    (array : mxArray) : outcome (pointer Scalar) :=
  if negb (isValidArray Scalar array)
  then Throw (invalid_argument "MX array of invalid type.")
  else Return (cast Scalar (mxGetData array)).

Definition checkArrayType_const (Scalar : scalar) `{!Traits Scalar}
    (array : mxArray) : outcome (pointer Scalar) :=
  if negb (isValidArray Scalar array)
  then Throw (invalid_argument "MX array of invalid type.")
  else Return (cast Scalar (mxGetData array)).

(** Lines 115-149: the template argument is the first argument. *)
Definition checkRows (r : Z) (rows : Z) : outcome Z :=
  if bool_decide (r = Dynamic) || bool_decide (r = rows) then Return rows
  else Throw (invalid_argument
         ("Mismatch between given (" +:+ to_string rows +:+
          ") and expected (" +:+ to_string r +:+ ") number of rows.")).

Definition checkRows_array (r : Z) (array : mxArray) : outcome Z :=
  checkRows r (to_int (mxGetM array)).

Definition checkCols (c : Z) (cols : Z) : outcome Z :=
  if bool_decide (c = Dynamic) || bool_decide (c = cols) then Return cols
  else Throw (invalid_argument
         ("Mismatch between given (" +:+ to_string cols +:+
          ") and expected (" +:+ to_string c +:+ ") number of columns.")).

Definition checkCols_array (c : Z) (array : mxArray) : outcome Z :=
  checkCols c (to_int (mxGetN array)).

(** Lines 65-69: the overload on two objects with a [slices()] accessor.
    The accessor belongs to the matrix classes, which are declared outside
    this header: the overload is stated over any such accessor. *)
Class Slices (Mat : Type) := { slices : Mat → VectorXi }.

Definition expandSlices_mat {MatA MatB : Type} `{!Slices MatA, !Slices MatB}
    (matA : MatA) (matB : MatB) : outcome VectorXi :=
  expandSliceDims (slices matA) (slices matB).

End Utils.

Import Eigen Utils.

(** ** Specification vocabulary *)

(** [v[i]] when [i] is an index of [v], and 1 otherwise. *)
Definition extent_or_1 (v : VectorXi) (i : nat) : Z :=
  if bool_decide (i < length v)%nat then v !!! i else 1.

(** The merged extent of axis [i]. *)
Definition merged (A B : VectorXi) (i : nat) : Z :=
  Z.max (extent_or_1 A i) (extent_or_1 B i).

(** [a[i] <= b[i]] on every common index. *)
Definition cwiseLe (a b : VectorXi) : bool :=
  forallb (λ p, fst p <=? snd p) (zip a b).

(** [sub] occurs in [msg]. *)
Definition contains (msg sub : string) : Prop :=
  ∃ pre suf, msg = pre +:+ sub +:+ suf.

(** Two arrays a MEX function can be handed: the empty real matrix
    (0-by-0, no data, so [mxGetData] is null), and an [int8] column with
    2^31 rows. *)
Definition empty_matrix : mxArray :=
  {| mxGetClassID := mxDOUBLE_CLASS; mxIsSparse := false;
     mxGetDimensions := [0; 0]; mxGetData := 0 |}.

Definition long_column : mxArray :=
  {| mxGetClassID := mxINT8_CLASS; mxIsSparse := false;
     mxGetDimensions := [2147483648; 1]; mxGetData := 140187732541440 |}.

(** ** Facts about the Eigen model *)

Section eigen_facts.
Implicit Types (v a b : VectorXi) (n : Z) (i : nat).

Lemma size_nonneg v : 0 ≤ size v.
Proof. unfold size. lia. Qed.

Lemma head_in_range v n :
  0 ≤ n ≤ size v → head v n = Return (take (Z.to_nat n) v).
Proof.
  intros Hn. unfold head, segment.
  rewrite bool_decide_eq_true_2 by lia. reflexivity.
Qed.

Lemma tail_in_range v n :
  0 ≤ n ≤ size v → tail v n = Return (drop (Z.to_nat (size v - n)) v).
Proof.
  intros Hn. unfold tail, segment.
  rewrite bool_decide_eq_true_2 by lia. f_equal.
  apply take_ge. rewrite length_drop. unfold size in *. lia.
Qed.

Lemma head_out_of_range v n :
  ¬ (0 ≤ n ≤ size v) → head v n = Abort eigen_block_range.
Proof.
  intros Hn. unfold head, segment.
  rewrite bool_decide_eq_false_2 by lia. reflexivity.
Qed.

Lemma tail_out_of_range v n :
  ¬ (0 ≤ n ≤ size v) → tail v n = Abort eigen_block_range.
Proof.
  intros Hn. unfold tail, segment.
  rewrite bool_decide_eq_false_2 by lia. reflexivity.
Qed.

Lemma coeff_in_range v i :
  (i < length v)%nat → coeff v i = Return (v !!! i).
Proof.
  intros Hi. unfold coeff.
  destruct (lookup_lt_is_Some_2 v i Hi) as [x Hx].
  rewrite Hx. f_equal. symmetry. by apply list_lookup_total_correct.
Qed.

Lemma length_make n : length (make n) = Z.to_nat n.
Proof. apply length_replicate. Qed.

End eigen_facts.

(** ** The loop of expandSliceDims *)

Section expand_loop.
Variables A B : VectorXi.

Lemma guarded_coeff (v : VectorXi) i :
  (if bool_decide (Z.of_nat i < size v) then coeff v i else Return 1)
  = Return (extent_or_1 v i).
Proof.
  unfold extent_or_1, size. case_bool_decide as Hi.
  - rewrite bool_decide_eq_true_2 by lia. apply coeff_in_range. lia.
  - rewrite bool_decide_eq_false_2 by lia. reflexivity.
Qed.

Lemma expandSliceDims_body_spec i (v : VectorXi) :
  (i < length v)%nat →
  expandSliceDims_body A B i v = Return (<[i := merged A B i]> v).
Proof.
  intros Hi. unfold expandSliceDims_body.
  rewrite !guarded_coeff. simpl. unfold set_coeff.
  rewrite bool_decide_eq_true_2 by done. reflexivity.
Qed.

(** After the iterations for [k, k + m) the first [k] coefficients are
    as before and the others are the merged extents. *)
Lemma expandSliceDims_loop m : ∀ k (v : VectorXi),
  length v = (k + m)%nat →
  for_each (expandSliceDims_body A B) (seq k m) v
  = Return (take k v ++ (merged A B <$> seq k m)).
Proof.
  induction m as [|m IH]; intros k v Hlen; simpl.
  - rewrite app_nil_r, take_ge by lia. reflexivity.
  - rewrite expandSliceDims_body_spec by lia. simpl.
    rewrite IH by (rewrite length_insert; lia).
    f_equal.
    rewrite (take_S_r _ k (merged A B k))
      by (apply list_lookup_insert_eq; lia).
    rewrite take_insert_ge by lia.
    by rewrite <- app_assoc.
Qed.

Lemma expandSliceDims_eq :
  expandSliceDims A B
  = Return (merged A B <$> seq 0 (Nat.max (length A) (length B))).
Proof.
  unfold expandSliceDims.
  rewrite length_make.
  replace (Z.to_nat (Z.max (size A) (size B)))
    with (Nat.max (length A) (length B)) by (unfold size; lia).
  rewrite expandSliceDims_loop by (rewrite length_make; unfold size; lia).
  reflexivity.
Qed.

End expand_loop.

Lemma merged_comm (A B : VectorXi) i : merged A B i = merged B A i.
Proof. unfold merged. apply Z.max_comm. Qed.

(** ** Theorems *)

(** C3: expandSliceDims(A, B) returns a vector whose length is
    max(len(A), len(B)) and whose i-th element is
    max(A[i] if i < len(A) else 1, B[i] if i < len(B) else 1). *)
Theorem expandSliceDims_spec (A B : VectorXi) :
  ∃ v : VectorXi,
    expandSliceDims A B = Return v ∧
    length v = Nat.max (length A) (length B) ∧
    ∀ i, (i < length v)%nat →
      v !! i = Some (Z.max (if bool_decide (i < length A)%nat then A !!! i else 1)
                           (if bool_decide (i < length B)%nat then B !!! i else 1)).
Proof.
  eexists. split; [apply expandSliceDims_eq|].
  rewrite length_fmap, length_seq. split; [done|].
  intros i Hi. rewrite list_lookup_fmap, lookup_seq_lt by done.
  reflexivity.
Qed.

(** C4: the merge is commutative: expandSliceDims(A, B) equals
    expandSliceDims(B, A). *)
Theorem expandSliceDims_comm (A B : VectorXi) :
  expandSliceDims A B = expandSliceDims B A.
Proof.
  rewrite !expandSliceDims_eq, Nat.max_comm. f_equal.
  apply list_fmap_ext. intros _ i _. apply merged_comm.
Qed.

(** *** expandSlices on full dimension vectors *)

Lemma tail_strip_two (v : VectorXi) :
  (2 ≤ length v)%nat → tail v (size v - 2) = Return (drop 2 v).
Proof.
  intros Hv. rewrite tail_in_range by (unfold size; lia).
  do 2 f_equal. lia.
Qed.

Lemma tail_strip_two_short (v : VectorXi) :
  (length v < 2)%nat → tail v (size v - 2) = Abort eigen_block_range.
Proof. intros Hv. apply tail_out_of_range. unfold size. lia. Qed.

(** C5: for full shape vectors dimsA and dimsB of length at least 2,
    expandSlices(dimsA, dimsB) returns what expandSliceDims returns on
    dimsA and dimsB with their first two elements removed. *)
Theorem expandSlices_strips_two (dimsA dimsB : VectorXi) :
  (2 ≤ length dimsA)%nat → (2 ≤ length dimsB)%nat →
  expandSlices dimsA dimsB = expandSliceDims (drop 2 dimsA) (drop 2 dimsB).
Proof.
  intros HA HB. unfold expandSlices.
  rewrite !tail_strip_two by done. reflexivity.
Qed.

Lemma expandSlices_strips_two_witness :
  expandSlices [3; 3; 4; 1] [3; 3; 2; 5; 6]
  = expandSliceDims (drop 2 [3; 3; 4; 1]) (drop 2 [3; 3; 2; 5; 6])
  ∧ expandSlices [3; 3; 4; 1] [3; 3; 2; 5; 6] = Return [4; 5; 6].
Proof.
  split; [|reflexivity].
  apply (expandSlices_strips_two [3; 3; 4; 1] [3; 3; 2; 5; 6]); simpl; lia.
Defined.

(** C9: expandSlices(dimsA, dimsB) takes tail(size - 2) of each input
    without a length guard.  When both inputs have at least 2 elements
    both extractions are in range and a vector is returned; an input of
    length 0 or 1 makes its extraction, and with it the call, fail the
    block range assertion. *)
Theorem expandSlices_precondition (dimsA dimsB : VectorXi) :
  ((2 ≤ length dimsA)%nat ∧ (2 ≤ length dimsB)%nat →
     (∃ a, tail dimsA (size dimsA - 2) = Return a) ∧
     (∃ b, tail dimsB (size dimsB - 2) = Return b) ∧
     (∃ v, expandSlices dimsA dimsB = Return v)) ∧
  ((length dimsA < 2)%nat →
     tail dimsA (size dimsA - 2) = Abort eigen_block_range ∧
     expandSlices dimsA dimsB = Abort eigen_block_range) ∧
  ((length dimsB < 2)%nat →
     tail dimsB (size dimsB - 2) = Abort eigen_block_range ∧
     expandSlices dimsA dimsB = Abort eigen_block_range).
Proof.
  split; [|split].
  - intros [HA HB]. unfold expandSlices.
    rewrite !tail_strip_two by done. simpl.
    rewrite expandSliceDims_eq. repeat split; eexists; reflexivity.
  - intros HA. unfold expandSlices.
    rewrite tail_strip_two_short by done. done.
  - intros HB. unfold expandSlices.
    rewrite (tail_strip_two_short dimsB) by done.
    split; [done|].
    destruct (tail dimsA (size dimsA - 2)) as [a| |f] eqn:Ha; simpl; [done| |].
    + unfold tail, segment in Ha. by case_bool_decide.
    + unfold tail, segment in Ha. case_bool_decide; congruence.
Qed.

(** *** isValidSlice *)

Section comparisons.
Implicit Types a b v : VectorXi.

Lemma min_equal_le a : ∀ b,
  forallb (λ p, fst p =? snd p) (zip (zip_with Z.min a b) a) = cwiseLe a b.
Proof.
  unfold cwiseLe.
  induction a as [|x a IH]; intros [|y b]; simpl; try reflexivity.
  rewrite IH. f_equal.
  destruct (Z.leb_spec x y); [apply Z.eqb_eq|apply Z.eqb_neq]; lia.
Qed.

Lemma max_equal_le a : ∀ b,
  forallb (λ p, fst p =? snd p) (zip (zip_with Z.max a b) a) = cwiseLe b a.
Proof.
  unfold cwiseLe.
  induction a as [|x a IH]; intros [|y b]; simpl; try reflexivity.
  rewrite IH. f_equal.
  destruct (Z.leb_spec y x); [apply Z.eqb_eq|apply Z.eqb_neq]; lia.
Qed.

Lemma cwiseLe_lookup a : ∀ b,
  length a = length b →
  cwiseLe a b = true ↔ ∀ i, (i < length a)%nat → a !!! i ≤ b !!! i.
Proof.
  unfold cwiseLe.
  induction a as [|x a IH]; intros [|y b] Hlen; simpl in *; try done.
  rewrite andb_true_iff, IH by lia. split.
  - intros [Hxy Hab] [|i] Hi; simpl; [by apply Z.leb_le|]. apply Hab. lia.
  - intros H. split.
    + apply Z.leb_le, (H 0%nat). lia.
    + intros i Hi. apply (H (S i)). lia.
Qed.

Lemma isZero_lookup v :
  isZero v = true ↔ ∀ i, (i < length v)%nat → v !!! i = 0.
Proof.
  unfold isZero. induction v as [|x v IH]; simpl.
  - split; [intros _ i Hi; simpl in Hi; lia|done].
  - rewrite andb_true_iff, IH. split.
    + intros [Hx Hv] [|i] Hi; simpl; [by apply Z.eqb_eq|]. apply Hv. lia.
    + intros H. split.
      * apply Z.eqb_eq, (H 0%nat). lia.
      * intros i Hi. apply (H (S i)). lia.
Qed.

Lemma cwiseMin_equal a b :
  length a = length b →
  (m ← cwiseMin a b; equal m a) = Return (cwiseLe a b).
Proof.
  intros Hlen. unfold cwiseMin, cwise, size.
  rewrite bool_decide_eq_true_2 by lia. simpl. unfold equal, size.
  rewrite bool_decide_eq_true_2
    by (rewrite length_zip_with; lia).
  by rewrite min_equal_le.
Qed.

Lemma cwiseMax_equal a b :
  length a = length b →
  (m ← cwiseMax a b; equal m a) = Return (cwiseLe b a).
Proof.
  intros Hlen. unfold cwiseMax, cwise, size.
  rewrite bool_decide_eq_true_2 by lia. simpl. unfold equal, size.
  rewrite bool_decide_eq_true_2
    by (rewrite length_zip_with; lia).
  by rewrite max_equal_le.
Qed.

Lemma cwiseMax_mismatch a b :
  length a ≠ length b → cwiseMax a b = Abort eigen_size_mismatch.
Proof.
  intros Hlen. unfold cwiseMax, cwise, size.
  rewrite bool_decide_eq_false_2 by lia. reflexivity.
Qed.

End comparisons.

Section isValidSlice_facts.
Variables slice sliceMins sliceMaxs : VectorXi.
Local Abbreviation D := (length sliceMins).

(** A candidate shorter than the bounds: the head is taken first. *)
Lemma isValidSlice_short :
  (length slice < D)%nat →
  isValidSlice slice sliceMins sliceMaxs = Abort eigen_block_range.
Proof.
  intros Hshort. unfold isValidSlice.
  rewrite head_out_of_range by (unfold size; lia). reflexivity.
Qed.

(** The two blocks of a candidate that is long enough. *)
Lemma isValidSlice_blocks :
  (D ≤ length slice)%nat →
  head slice (size sliceMins) = Return (take D slice) ∧
  tail slice (size slice - size sliceMins) = Return (drop D slice).
Proof.
  intros Hlong. split.
  - rewrite head_in_range by (unfold size; lia).
    unfold size. by rewrite Nat2Z.id.
  - rewrite tail_in_range by (unfold size; lia).
    do 2 f_equal. unfold size. lia.
Qed.

(** With bounds of equal length and a candidate that is long enough
    the outcome is a Boolean, the conjunction of the three tests. *)
Lemma isValidSlice_long :
  length sliceMins = length sliceMaxs →
  (D ≤ length slice)%nat →
  isValidSlice slice sliceMins sliceMaxs
  = Return (cwiseLe sliceMins (take D slice)
            && cwiseLe (take D slice) sliceMaxs
            && isZero (drop D slice)).
Proof.
  intros Hbounds Hlong. unfold isValidSlice.
  destruct (isValidSlice_blocks Hlong) as [-> ->]. simpl.
  rewrite bool_decide_eq_false_2 by (unfold size; lia).
  assert (length (take D slice) = D) as Hhead by (apply length_take_le; lia).
  case_bool_decide as Hempty.
  - unfold size in Hempty.
    assert (D = 0%nat) as HD by lia. rewrite HD in *.
    destruct sliceMins; [|done]. reflexivity.
  - pose proof (cwiseMin_equal sliceMins (take D slice)) as Hmin.
    pose proof (cwiseMax_equal sliceMaxs (take D slice)) as Hmax.
    unfold mbind, outcome_bind in *.
    destruct (cwiseMin sliceMins (take D slice)) as [m| |];
      try (discriminate Hmin; lia).
    rewrite Hmin by lia.
    destruct (cwiseLe sliceMins (take D slice)); [|reflexivity].
    destruct (cwiseMax sliceMaxs (take D slice)) as [M| |];
      try (discriminate Hmax; lia).
    rewrite Hmax by lia.
    destruct (cwiseLe (take D slice) sliceMaxs); [|reflexivity].
    simpl. f_equal. case_bool_decide as Hsame; [|reflexivity].
    simpl. rewrite drop_ge by (unfold size in Hsame; lia). reflexivity.
Qed.

(** With bounds of different lengths the comparison against the upper
    bounds fails as soon as it is evaluated. *)
Lemma isValidSlice_mismatch :
  length sliceMins ≠ length sliceMaxs →
  (D ≤ length slice)%nat → (0 < D)%nat →
  cwiseLe sliceMins (take D slice) = true →
  isValidSlice slice sliceMins sliceMaxs = Abort eigen_size_mismatch.
Proof.
  intros Hbounds Hlong Hpos Hle. unfold isValidSlice.
  destruct (isValidSlice_blocks Hlong) as [-> ->]. simpl.
  rewrite bool_decide_eq_false_2 by (unfold size; lia).
  assert (length (take D slice) = D) as Hhead by (apply length_take_le; lia).
  rewrite bool_decide_eq_false_2 by (unfold size; lia).
  pose proof (cwiseMin_equal sliceMins (take D slice)) as Hmin.
  unfold mbind, outcome_bind in *.
  destruct (cwiseMin sliceMins (take D slice)) as [m| |];
    try (discriminate Hmin; lia).
  rewrite Hmin, Hle by lia.
  rewrite cwiseMax_mismatch by lia. reflexivity.
Qed.

End isValidSlice_facts.

(** The comparison against the upper bounds is evaluated only after the
    one against the lower bounds has succeeded on a non-empty head. *)
Example isValidSlice_upper_mismatch :
  isValidSlice [3] [2] [] = Abort eigen_size_mismatch.
Proof. reflexivity. Qed.

Example isValidSlice_upper_not_evaluated :
  isValidSlice [1] [2] [] = Return false ∧
  isValidSlice [0] [] [5] = Return true.
Proof. split; reflexivity. Qed.

Example isValidSlice_examples :
  isValidSlice [3; 4] [2; 2] [5; 5] = Return true ∧
  isValidSlice [1; 4] [2; 2] [5; 5] = Return false ∧
  isValidSlice [3; 4; 0] [2; 2] [5; 5] = Return true ∧
  isValidSlice [3; 4; 1] [2; 2] [5; 5] = Return false ∧
  isValidSlice [] [] [] = Return true.
Proof. repeat split. Qed.

Lemma isZero_drop (v : VectorXi) (n : nat) :
  isZero (drop n v) = true ↔
  ∀ i, (n ≤ i < length v)%nat → v !!! i = 0.
Proof.
  rewrite isZero_lookup. setoid_rewrite length_drop.
  setoid_rewrite lookup_total_drop. split.
  - intros H i Hi. replace i with (n + (i - n))%nat by lia. apply H. lia.
  - intros H i Hi. apply H. lia.
Qed.

Lemma within_bounds_lookup (slice sliceMins sliceMaxs : VectorXi) :
  length sliceMins = length sliceMaxs →
  (length sliceMins ≤ length slice)%nat →
  cwiseLe sliceMins (take (length sliceMins) slice)
  && cwiseLe (take (length sliceMins) slice) sliceMaxs = true
  ↔ ∀ i, (i < length sliceMins)%nat →
      sliceMins !!! i ≤ slice !!! i ≤ sliceMaxs !!! i.
Proof.
  intros Hbounds Hlong.
  assert (length (take (length sliceMins) slice) = length sliceMins) as Hhead
    by (apply length_take_le; lia).
  rewrite andb_true_iff, !cwiseLe_lookup by lia. rewrite Hhead. split.
  - intros [Hlo Hhi] i Hi. specialize (Hlo i Hi). specialize (Hhi i Hi).
    rewrite lookup_total_take_lt in Hlo, Hhi by done. lia.
  - intros H. split; intros i Hi; rewrite lookup_total_take_lt by done;
      apply H, Hi.
Qed.

(** C1 (the code departs from it): for a candidate strictly shorter than
    the bounds length D the claim is that isValidSlice returns false.  The
    code takes slice.head(D) before it tests the sizes, and that block is
    out of range for such a candidate: the call fails Eigen's block range
    assertion and the [return false] of the size test is never reached. *)
Theorem isValidSlice_short_candidate (slice sliceMins sliceMaxs : VectorXi) :
  (length slice < length sliceMins)%nat →
  head slice (size sliceMins) = Abort eigen_block_range ∧
  isValidSlice slice sliceMins sliceMaxs = Abort eigen_block_range ∧
  isValidSlice slice sliceMins sliceMaxs ≠ Return false.
Proof.
  intros Hshort. split; [|split].
  - apply head_out_of_range. unfold size. lia.
  - by apply isValidSlice_short.
  - by rewrite isValidSlice_short.
Qed.

Lemma isValidSlice_short_candidate_witness :
  isValidSlice [3] [2; 2] [5; 5] = Abort eigen_block_range.
Proof.
  apply (isValidSlice_short_candidate [3] [2; 2] [5; 5]). simpl. lia.
Defined.

(** C2: for a candidate of length at least D, where D is the common
    length of the lower and upper bounds, isValidSlice returns true if and
    only if lowerBounds[i] <= candidate[i] <= upperBounds[i] for every
    i < D and every element of the candidate at an index >= D is zero; when
    D = 0 it returns true if and only if every element of the candidate is
    zero, and so it returns true for the empty candidate. *)
Theorem isValidSlice_spec (slice sliceMins sliceMaxs : VectorXi) :
  length sliceMins = length sliceMaxs →
  (length sliceMins ≤ length slice)%nat →
  ∃ b : bool,
    isValidSlice slice sliceMins sliceMaxs = Return b ∧
    (b = true ↔
       (∀ i, (i < length sliceMins)%nat →
          sliceMins !!! i ≤ slice !!! i ≤ sliceMaxs !!! i) ∧
       (∀ i, (length sliceMins ≤ i < length slice)%nat → slice !!! i = 0)) ∧
    (length sliceMins = 0%nat →
       (b = true ↔ ∀ i, (i < length slice)%nat → slice !!! i = 0)) ∧
    (slice = [] → b = true).
Proof.
  intros Hbounds Hlong. eexists. split; [by apply isValidSlice_long|].
  assert (∀ b1 b2, b1 && b2 = true ↔ b1 = true ∧ b2 = true) as Hand
    by (intros; apply andb_true_iff).
  split; [|split].
  - rewrite Hand, within_bounds_lookup, isZero_drop by done. reflexivity.
  - intros HD. rewrite Hand, within_bounds_lookup, isZero_drop by done.
    rewrite HD. split.
    + intros [_ H] i Hi. apply H. lia.
    + intros H. split; intros i Hi; [lia|apply H; lia].
  - intros ->. simpl in Hlong.
    destruct sliceMins; [|simpl in Hlong; lia].
    destruct sliceMaxs; [|done]. reflexivity.
Qed.

Lemma isValidSlice_spec_witness :
  ∃ b : bool,
    isValidSlice [3; 4; 0] [2; 2] [5; 5] = Return b ∧
    (b = true ↔
       (∀ i, (i < 2)%nat →
          [2; 2] !!! i ≤ [3; 4; 0] !!! i ≤ [5; 5] !!! i) ∧
       (∀ i, (2 ≤ i < 3)%nat → [3; 4; 0] !!! i = 0)) ∧
    (2%nat = 0%nat →
       (b = true ↔ ∀ i, (i < 3)%nat → [3; 4; 0] !!! i = 0)) ∧
    ([3; 4; 0] = [] → b = true).
Proof.
  apply (isValidSlice_spec [3; 4; 0] [2; 2] [5; 5]); simpl; lia.
Defined.

(** C10: isValidSlice takes D from the lower bounds alone and compares
    the head of the candidate with the upper bounds without a size test.
    When the two bounds have equal length every coefficient-wise
    comparison is in range: both comparisons return on the head and the
    call never fails the size assertion.  When their lengths differ the
    comparison of the head against the upper bounds is out of range, and
    the call fails the size assertion whenever it evaluates it (D > 0,
    a candidate of length at least D that is not below the lower bounds). *)
Theorem isValidSlice_bounds_precondition (slice sliceMins sliceMaxs : VectorXi) :
  (length sliceMins = length sliceMaxs →
     isValidSlice slice sliceMins sliceMaxs ≠ Abort eigen_size_mismatch ∧
     ∀ sHead, head slice (size sliceMins) = Return sHead →
       (∃ b, (m ← cwiseMin sliceMins sHead; equal m sliceMins) = Return b) ∧
       (∃ b, (M ← cwiseMax sliceMaxs sHead; equal M sliceMaxs) = Return b)) ∧
  (length sliceMins ≠ length sliceMaxs →
     (∀ sHead, head slice (size sliceMins) = Return sHead →
        cwiseMax sliceMaxs sHead = Abort eigen_size_mismatch) ∧
     ((0 < length sliceMins ≤ length slice)%nat →
      (∀ i, (i < length sliceMins)%nat → sliceMins !!! i ≤ slice !!! i) →
      isValidSlice slice sliceMins sliceMaxs = Abort eigen_size_mismatch)).
Proof.
  assert (∀ sHead, head slice (size sliceMins) = Return sHead →
            length sHead = length sliceMins) as Hhead.
  { intros sHead. unfold head, segment. case_bool_decide as Hr; [|done].
    intros [= <-]. rewrite drop_0, length_take. unfold size in *. lia. }
  split.
  - intros Hbounds. split.
    + destruct (decide (length sliceMins ≤ length slice)%nat) as [Hlong|Hshort].
      * by rewrite isValidSlice_long.
      * by rewrite isValidSlice_short by lia.
    + intros sHead HsHead. apply Hhead in HsHead.
      rewrite cwiseMin_equal, cwiseMax_equal by lia. eauto.
  - intros Hbounds. split.
    + intros sHead HsHead. apply Hhead in HsHead.
      apply cwiseMax_mismatch. lia.
    + intros [Hpos Hlong] Hlo. apply isValidSlice_mismatch; [done..|].
      apply cwiseLe_lookup.
      * rewrite length_take_le; lia.
      * intros i Hi. rewrite lookup_total_take_lt by done. by apply Hlo.
Qed.

(** *** checkRows and checkCols *)

Lemma append_assoc (s1 s2 s3 : string) :
  (s1 +:+ s2) +:+ s3 = s1 +:+ s2 +:+ s3.
Proof.
  induction s1 as [|c s1 IH]; [done|].
  change (String c ((s1 +:+ s2) +:+ s3) = String c (s1 +:+ s2 +:+ s3)).
  by f_equal.
Qed.

Lemma contains_first (pre given mid expected suf : string) :
  contains (pre +:+ given +:+ mid +:+ expected +:+ suf) given.
Proof. by exists pre, (mid +:+ expected +:+ suf). Qed.

Lemma contains_second (pre given mid expected suf : string) :
  contains (pre +:+ given +:+ mid +:+ expected +:+ suf) expected.
Proof.
  exists (pre +:+ given +:+ mid), suf. by rewrite !append_assoc.
Qed.

Example checkRows_message :
  checkRows 2 3 = Throw (invalid_argument
    "Mismatch between given (3) and expected (2) number of rows.").
Proof. reflexivity. Qed.

Example checkCols_message :
  checkCols 4 (-1) = Throw (invalid_argument
    "Mismatch between given (-1) and expected (4) number of columns.").
Proof. reflexivity. Qed.

(** C6: checkRows<r>(n), and likewise checkCols<c>(n), returns n
    unchanged when the expected count is the "any size" marker or equals n,
    and otherwise throws std::invalid_argument with a message that
    contains both the given count n and the expected count. *)
Theorem checkRows_checkCols_spec (expected n : Z) :
  (expected = Dynamic ∨ expected = n →
     checkRows expected n = Return n ∧ checkCols expected n = Return n) ∧
  (expected ≠ Dynamic ∧ expected ≠ n →
     (∃ what, checkRows expected n = Throw (invalid_argument what) ∧
        contains what (to_string n) ∧ contains what (to_string expected)) ∧
     (∃ what, checkCols expected n = Throw (invalid_argument what) ∧
        contains what (to_string n) ∧ contains what (to_string expected))).
Proof.
  unfold checkRows, checkCols. split.
  - intros Hok.
    assert (bool_decide (expected = Dynamic) || bool_decide (expected = n)
            = true) as ->; [|done].
    apply orb_true_iff. rewrite !bool_decide_eq_true. done.
  - intros [Hdyn Hne].
    rewrite !bool_decide_eq_false_2 by done. simpl.
    split; eexists; (split; [reflexivity|]);
      split; first [apply contains_first | apply contains_second].
Qed.

(** *** checkArrayType *)

(** Counterexample to C7 as stated: the empty real matrix passes the
    type test of [double] and has no data, so the pointer returned for it
    is null. *)
Lemma checkArrayType_null :
  @isValidArray c_double Traits_double empty_matrix = true ∧
  @checkArrayType c_double Traits_double empty_matrix = Return (null c_double) ∧
  address (null c_double) = 0.
Proof. repeat split. Qed.

(** C7 (amended): checkArrayType<T> throws std::invalid_argument, with
    the fixed message, if and only if the array's declared type is
    incompatible with T; on a compatible array it returns the array's raw
    data pointer reinterpreted as T*, which is null exactly when the raw
    data pointer is.  The overload for const arrays does the same. *)
Theorem checkArrayType_spec (Scalar : scalar) `{!Traits Scalar} (array : mxArray) :
  ((∃ what, checkArrayType Scalar array = Throw (invalid_argument what))
     ↔ isValidArray Scalar array = false) ∧
  (isValidArray Scalar array = false →
     checkArrayType Scalar array
     = Throw (invalid_argument "MX array of invalid type.")) ∧
  (isValidArray Scalar array = true →
     checkArrayType Scalar array = Return (cast Scalar (mxGetData array))) ∧
  (∀ p, checkArrayType Scalar array = Return p →
     address p = mxGetData array ∧ (p = null Scalar ↔ mxGetData array = 0)) ∧
  checkArrayType_const Scalar array = checkArrayType Scalar array.
Proof.
  unfold checkArrayType, checkArrayType_const.
  destruct (isValidArray Scalar array); simpl.
  - split; [split; [by intros [what ?]|done]|].
    split; [done|]. split; [done|]. split; [|done].
    intros p [= <-]. unfold null, cast. simpl.
    split; [done|]. split; [by intros [= ->]|by intros ->].
  - split; [split; [done|eauto]|].
    repeat split; done.
Qed.

(** *** getDimensions *)

Lemma to_int_in_range (z : Z) : int_min ≤ z ≤ int_max → to_int z = z.
Proof.
  unfold int_min, int_max, to_int. intros Hz.
  rewrite Z.mod_small by lia. lia.
Qed.

Lemma getDimensions_dense (array : mxArray) :
  mxIsSparse array = false →
  getDimensions array = Return (to_int <$> mxGetDimensions array).
Proof.
  intros Hdense. unfold getDimensions, std_copy, mxGetNumberOfDimensions.
  rewrite Hdense. simpl. f_equal.
  rewrite Nat2Z.id, take_ge, drop_ge, app_nil_r; [done| |done].
  by rewrite length_make, Nat2Z.id.
Qed.

(** Counterexample to C8 as stated: for a dense column with 2^31 rows
    the first element of the result is not the first extent. *)
Lemma getDimensions_long_column :
  mxIsSparse long_column = false ∧
  mxGetDimensions long_column = [2147483648; 1] ∧
  getDimensions long_column = Return [-2147483648; 1].
Proof. repeat split. Qed.

(** C8 (amended): on a dense array getDimensions returns a vector whose
    length is the array's number of axes and whose i-th element is the
    i-th extent converted to int, hence the extent itself whenever that is
    at most 2^31 - 1; on a sparse array it fails through the assertion
    channel, with the message of the mxAssert, and throws nothing. *)
Theorem getDimensions_spec (array : mxArray) :
  (mxIsSparse array = false →
     ∃ v : VectorXi,
       getDimensions array = Return v ∧
       size v = mxGetNumberOfDimensions array ∧
       (∀ i, (i < length v)%nat →
          v !!! i = to_int (mxGetDimensions array !!! i)) ∧
       (Forall (λ d, 0 ≤ d ≤ int_max) (mxGetDimensions array) →
          v = mxGetDimensions array)) ∧
  (mxIsSparse array = true →
     getDimensions array = Abort (mx_assertion "Array must be dense.") ∧
     ∀ e, getDimensions array ≠ Throw e).
Proof.
  split.
  - intros Hdense. eexists. split; [by apply getDimensions_dense|].
    split; [|split].
    + unfold size, mxGetNumberOfDimensions. by rewrite length_fmap.
    + intros i Hi. rewrite length_fmap in Hi.
      by apply list_lookup_total_fmap.
    + intros Hfit. rewrite <- (list_fmap_id (mxGetDimensions array)) at 2.
      apply Forall_fmap_ext_1. eapply Forall_impl; [exact Hfit|].
      intros d Hd. simpl in Hd. unfold id.
      apply to_int_in_range. unfold int_min. lia.
  - intros Hsparse. unfold getDimensions. rewrite Hsparse. simpl. done.
Qed.

(** ** Further properties of the helpers *)

(** *** expandSliceDims as an operation on shapes *)

Lemma extent_or_1_merged (A B : VectorXi) (i : nat) :
  extent_or_1 (merged A B <$> seq 0 (Nat.max (length A) (length B))) i
  = merged A B i.
Proof.
  unfold extent_or_1 at 1. rewrite length_fmap, length_seq.
  case_bool_decide as Hi.
  - rewrite list_lookup_total_alt, list_lookup_fmap, lookup_seq_lt by done.
    reflexivity.
  - unfold merged, extent_or_1.
    rewrite !bool_decide_eq_false_2 by lia. reflexivity.
Qed.

Lemma merged_self (A : VectorXi) :
  merged A A <$> seq 0 (length A) = A.
Proof.
  apply list_eq. intros i. rewrite list_lookup_fmap.
  destruct (decide (i < length A)%nat) as [Hi|Hi].
  - rewrite lookup_seq_lt by done. simpl.
    unfold merged, extent_or_1. rewrite bool_decide_eq_true_2 by done.
    rewrite Z.max_id. symmetry. by apply list_lookup_lookup_total_lt.
  - rewrite lookup_seq_ge by lia. simpl. symmetry.
    apply lookup_ge_None. lia.
Qed.

(** Merging a shape with itself returns it unchanged. *)
Theorem expandSliceDims_idempotent (A : VectorXi) :
  expandSliceDims A A = Return A.
Proof.
  rewrite expandSliceDims_eq, Nat.max_id. f_equal. apply merged_self.
Qed.

(** Merging three shapes gives the same result whichever two are merged
    first. *)
Theorem expandSliceDims_assoc (A B C : VectorXi) :
  (AB ← expandSliceDims A B; expandSliceDims AB C)
  = (BC ← expandSliceDims B C; expandSliceDims A BC).
Proof.
  rewrite !expandSliceDims_eq. simpl. rewrite !expandSliceDims_eq.
  rewrite !length_fmap, !length_seq, Nat.max_assoc. f_equal.
  apply list_fmap_ext. intros _ i _.
  unfold merged at 1 3. rewrite !extent_or_1_merged.
  unfold merged. apply eq_sym, Z.max_assoc.
Qed.

(** Merging the result once more with one of the inputs changes
    nothing. *)
Theorem expandSliceDims_absorb (A B : VectorXi) :
  (AB ← expandSliceDims A B; expandSliceDims AB A) = expandSliceDims A B.
Proof.
  rewrite !expandSliceDims_eq. simpl. rewrite expandSliceDims_eq.
  rewrite length_fmap, length_seq.
  replace (Nat.max (Nat.max (length A) (length B)) (length A))
    with (Nat.max (length A) (length B)) by lia.
  f_equal. apply list_fmap_ext. intros _ i _.
  unfold merged at 1. rewrite extent_or_1_merged.
  unfold merged. lia.
Qed.

Lemma merged_lookup_total (A B : VectorXi) (i : nat) :
  (i < Nat.max (length A) (length B))%nat →
  (merged A B <$> seq 0 (Nat.max (length A) (length B))) !!! i = merged A B i.
Proof.
  intros Hi.
  rewrite list_lookup_total_alt, list_lookup_fmap, lookup_seq_lt by done.
  reflexivity.
Qed.

(** The merged shape bounds both inputs from above, and on the axes that
    one of the inputs lacks it is at least 1. *)
Theorem expandSliceDims_upper_bound (A B : VectorXi) :
  ∃ v : VectorXi,
    expandSliceDims A B = Return v ∧
    (∀ i, (i < length A)%nat → A !!! i ≤ v !!! i) ∧
    (∀ i, (i < length B)%nat → B !!! i ≤ v !!! i) ∧
    (∀ i, (Nat.min (length A) (length B) ≤ i < length v)%nat → 1 ≤ v !!! i).
Proof.
  eexists. split; [apply expandSliceDims_eq|].
  rewrite length_fmap, length_seq.
  split; [|split]; intros i Hi; rewrite merged_lookup_total by lia;
    unfold merged, extent_or_1.
  - rewrite (bool_decide_eq_true_2 (i < length A)%nat) by done. lia.
  - rewrite (bool_decide_eq_true_2 (i < length B)%nat) by done. lia.
  - do 2 case_bool_decide; lia.
Qed.

(** A shape of extents that are all at least 1 is unchanged by a merge
    with a shape of ones that is not longer, on either side; the empty
    shape is such a shape of ones. *)
Theorem expandSliceDims_ones (A B : VectorXi) :
  Forall (λ x, 1 ≤ x) A → Forall (λ x, x = 1) B →
  (length B ≤ length A)%nat →
  expandSliceDims A B = Return A ∧ expandSliceDims B A = Return A.
Proof.
  intros HA HB Hlen.
  assert (merged A B <$> seq 0 (length A) = A) as Hmerge.
  { apply list_eq. intros i. rewrite list_lookup_fmap.
    destruct (decide (i < length A)%nat) as [Hi|Hi].
    - rewrite lookup_seq_lt by done. simpl.
      rewrite (list_lookup_lookup_total_lt A i) by done. f_equal.
      pose proof (Forall_lookup_total_1 _ A i HA Hi) as HAi. simpl in HAi.
      unfold merged, extent_or_1.
      rewrite (bool_decide_eq_true_2 (i < length A)%nat) by done.
      case_bool_decide as HiB; [|lia].
      pose proof (Forall_lookup_total_1 _ B i HB HiB) as HBi. simpl in HBi.
      lia.
    - rewrite lookup_seq_ge by lia. simpl. symmetry.
      apply lookup_ge_None. lia. }
  rewrite !expandSliceDims_eq.
  replace (Nat.max (length B) (length A)) with (length A) by lia.
  replace (Nat.max (length A) (length B)) with (length A) by lia.
  split; f_equal; [done|].
  transitivity (merged A B <$> seq 0 (length A)); [|done].
  apply list_fmap_ext. intros _ i _. apply merged_comm.
Qed.

Lemma expandSliceDims_ones_witness :
  expandSliceDims [4; 1; 6] [1; 1] = Return [4; 1; 6] ∧
  expandSliceDims [1; 1] [4; 1; 6] = Return [4; 1; 6].
Proof.
  apply (expandSliceDims_ones [4; 1; 6] [1; 1]).
  - repeat constructor; lia.
  - repeat constructor.
  - simpl. lia.
Defined.

(** *** The other overloads of expandSlices *)

(** The overload on full dimension vectors is commutative on all inputs,
    those it fails on included. *)
Theorem expandSlices_comm (dimsA dimsB : VectorXi) :
  expandSlices dimsA dimsB = expandSlices dimsB dimsA.
Proof.
  unfold expandSlices.
  destruct (decide (2 ≤ length dimsA)%nat) as [HA|HA],
    (decide (2 ≤ length dimsB)%nat) as [HB|HB];
    rewrite ?(tail_strip_two dimsA), ?(tail_strip_two dimsB),
      ?(tail_strip_two_short dimsA), ?(tail_strip_two_short dimsB) by lia;
    simpl; try reflexivity.
  rewrite !expandSliceDims_eq, Nat.max_comm. f_equal.
  apply list_fmap_ext. intros _ i _. apply merged_comm.
Qed.

(** On full dimension vectors with at least two elements each, the
    result has max(len(A), len(B)) - 2 elements, and its i-th element is
    the larger of A[i + 2] and B[i + 2], a missing one counting as 1. *)
Theorem expandSlices_spec (dimsA dimsB : VectorXi) :
  (2 ≤ length dimsA)%nat → (2 ≤ length dimsB)%nat →
  ∃ v : VectorXi,
    expandSlices dimsA dimsB = Return v ∧
    length v = (Nat.max (length dimsA) (length dimsB) - 2)%nat ∧
    ∀ i, (i < length v)%nat →
      v !!! i
      = Z.max (if bool_decide (i + 2 < length dimsA)%nat
               then dimsA !!! (i + 2)%nat else 1)
              (if bool_decide (i + 2 < length dimsB)%nat
               then dimsB !!! (i + 2)%nat else 1).
Proof.
  intros HA HB. unfold expandSlices.
  rewrite !tail_strip_two by done. simpl.
  eexists. split; [apply expandSliceDims_eq|].
  assert (length (drop 2 dimsA) = (length dimsA - 2)%nat) as HlenA
    by apply length_drop.
  assert (length (drop 2 dimsB) = (length dimsB - 2)%nat) as HlenB
    by apply length_drop.
  rewrite length_fmap, length_seq.
  split; [lia|]. intros i Hi.
  rewrite merged_lookup_total by done.
  unfold merged, extent_or_1. rewrite !lookup_total_drop, HlenA, HlenB.
  replace (2 + i)%nat with (i + 2)%nat by lia.
  f_equal; repeat case_bool_decide; lia.
Qed.

Lemma expandSlices_spec_witness :
  ∃ v : VectorXi,
    expandSlices [3; 3; 4; 1] [3; 3; 2; 5; 6] = Return v ∧
    length v = 3%nat ∧ v !!! 1%nat = 5.
Proof.
  destruct (expandSlices_spec [3; 3; 4; 1] [3; 3; 2; 5; 6])
    as (v & Hv & Hlen & Hi); [simpl; lia..|].
  exists v. split; [done|]. split; [done|].
  rewrite Hi by (rewrite Hlen; simpl; lia). reflexivity.
Defined.

(** The overload on two objects with a slice accessor has no length
    precondition: it always returns, a shape as long as the longer of the
    two slice shapes, and swapping its arguments gives the same shape. *)
Theorem expandSlices_mat_total {MatA MatB : Type}
    `{!Slices MatA, !Slices MatB} (matA : MatA) (matB : MatB) :
  (∃ v : VectorXi,
     expandSlices_mat matA matB = Return v ∧
     length v = Nat.max (length (slices matA)) (length (slices matB))) ∧
  expandSlices_mat matA matB = expandSlices_mat matB matA.
Proof.
  unfold expandSlices_mat. rewrite !expandSliceDims_eq. split.
  - eexists. split; [done|]. by rewrite length_fmap, length_seq.
  - rewrite Nat.max_comm. f_equal.
    apply list_fmap_ext. intros _ i _. apply merged_comm.
Qed.

(** *** isValidSlice on all inputs *)

Lemma isZero_app (a b : VectorXi) : isZero (a ++ b) = isZero a && isZero b.
Proof. unfold isZero. apply forallb_app. Qed.

Lemma isZero_replicate (k : nat) : isZero (replicate k 0) = true.
Proof. unfold isZero. induction k as [|k IH]; simpl; done. Qed.

Lemma cwiseLe_head (slice sliceMins : VectorXi) :
  (length sliceMins ≤ length slice)%nat →
  cwiseLe sliceMins (take (length sliceMins) slice) = true
  ↔ ∀ i, (i < length sliceMins)%nat → sliceMins !!! i ≤ slice !!! i.
Proof.
  intros Hlong. rewrite cwiseLe_lookup by (rewrite length_take_le; lia).
  split; intros H i Hi; specialize (H i Hi);
    by rewrite lookup_total_take_lt in * by done.
Qed.

(** The outcome for a candidate that is long enough, whatever the length
    of the upper bounds. *)
Lemma isValidSlice_long_cases (slice sliceMins sliceMaxs : VectorXi) :
  (length sliceMins ≤ length slice)%nat →
  isValidSlice slice sliceMins sliceMaxs
  = if bool_decide (length sliceMins = 0%nat)
    then Return (isZero (drop (length sliceMins) slice))
    else if cwiseLe sliceMins (take (length sliceMins) slice)
    then if bool_decide (length sliceMaxs = length sliceMins)
         then Return (cwiseLe (take (length sliceMins) slice) sliceMaxs
                      && isZero (drop (length sliceMins) slice))
         else Abort eigen_size_mismatch
    else Return false.
Proof.
  intros Hlong.
  destruct (decide (length sliceMins = 0%nat)) as [HD|HD].
  - rewrite bool_decide_eq_true_2 by done.
    destruct sliceMins; [|done]. unfold isValidSlice.
    destruct (isValidSlice_blocks slice [] Hlong) as [-> ->]. simpl.
    rewrite bool_decide_eq_false_2 by (unfold size; simpl; lia).
    reflexivity.
  - rewrite bool_decide_eq_false_2 by done.
    destruct (cwiseLe sliceMins (take (length sliceMins) slice)) eqn:Hlo.
    + case_bool_decide as Hbounds.
      * rewrite isValidSlice_long, Hlo by done. reflexivity.
      * apply isValidSlice_mismatch; [done|done|lia|done].
    + unfold isValidSlice.
      destruct (isValidSlice_blocks slice sliceMins Hlong) as [-> ->]. simpl.
      rewrite bool_decide_eq_false_2 by (unfold size; lia).
      assert (length (take (length sliceMins) slice) = length sliceMins)
        as Hhead by (apply length_take_le; lia).
      rewrite bool_decide_eq_false_2 by (unfold size; lia).
      pose proof (cwiseMin_equal sliceMins (take (length sliceMins) slice))
        as Hmin.
      unfold mbind, outcome_bind in *.
      destruct (cwiseMin sliceMins (take (length sliceMins) slice)) as [m| |];
        try (discriminate Hmin; lia).
      rewrite Hmin, Hlo by lia. reflexivity.
Qed.

(** isValidSlice fails the block range assertion exactly when the
    candidate is shorter than the lower bounds, and the size assertion
    exactly when the lower bounds are not empty, the upper bounds have
    another length, and the candidate is long enough and not below the
    lower bounds.  It fails in no other way and throws nothing. *)
Theorem isValidSlice_failures (slice sliceMins sliceMaxs : VectorXi) :
  (isValidSlice slice sliceMins sliceMaxs = Abort eigen_block_range
     ↔ (length slice < length sliceMins)%nat) ∧
  (isValidSlice slice sliceMins sliceMaxs = Abort eigen_size_mismatch
     ↔ (0 < length sliceMins ≤ length slice)%nat ∧
       length sliceMaxs ≠ length sliceMins ∧
       ∀ i, (i < length sliceMins)%nat → sliceMins !!! i ≤ slice !!! i) ∧
  (∀ e, isValidSlice slice sliceMins sliceMaxs ≠ Throw e) ∧
  (∀ f, isValidSlice slice sliceMins sliceMaxs = Abort f →
     f = eigen_block_range ∨ f = eigen_size_mismatch).
Proof.
  destruct (decide (length slice < length sliceMins)%nat) as [Hshort|Hlong].
  - rewrite isValidSlice_short by done.
    split; [done|]. split; [|split].
    + split; [intros [=]|intros [? _]; lia].
    + done.
    + intros f [= <-]. by left.
  - apply Nat.nlt_ge in Hlong.
    rewrite isValidSlice_long_cases by done.
    rewrite <- (cwiseLe_head slice sliceMins) by done.
    case_bool_decide as HD.
    { split; [split; [done|lia]|]. split; [|done].
      split; [done|intros [? _]; lia]. }
    destruct (cwiseLe sliceMins (take (length sliceMins) slice)).
    + case_bool_decide as Hbounds.
      * split; [split; [done|lia]|]. split; [|done].
        split; [done|by intros (_ & ? & _)].
      * split; [split; [intros [=]|lia]|]. split; [|split].
        -- split; [intros _; repeat split; [lia|lia|done..]|done].
        -- done.
        -- intros f [= <-]. by right.
    + split; [split; [done|lia]|]. split; [|done].
      split; [done|by intros (_ & _ & ?)].
Qed.

(** Zeros appended to a candidate that is long enough change nothing,
    failures included. *)
Theorem isValidSlice_trailing_zeros (slice sliceMins sliceMaxs : VectorXi)
    (k : nat) :
  (length sliceMins ≤ length slice)%nat →
  isValidSlice (slice ++ replicate k 0) sliceMins sliceMaxs
  = isValidSlice slice sliceMins sliceMaxs.
Proof.
  intros Hlong.
  rewrite !isValidSlice_long_cases by (rewrite ?length_app; lia).
  rewrite take_app_le, drop_app_le by done.
  by rewrite isZero_app, isZero_replicate, andb_true_r.
Qed.

Lemma isValidSlice_trailing_zeros_witness :
  isValidSlice ([3; 4] ++ replicate 2 0) [2; 2] [5; 5]
  = isValidSlice [3; 4] [2; 2] [5; 5].
Proof.
  apply (isValidSlice_trailing_zeros [3; 4] [2; 2] [5; 5] 2). simpl. lia.
Defined.

(** A candidate that is accepted is at least as long as the lower bounds,
    and its first D elements alone are accepted too. *)
Theorem isValidSlice_truncate (slice sliceMins sliceMaxs : VectorXi) :
  isValidSlice slice sliceMins sliceMaxs = Return true →
  (length sliceMins ≤ length slice)%nat ∧
  isValidSlice (take (length sliceMins) slice) sliceMins sliceMaxs
  = Return true.
Proof.
  intros Hvalid.
  destruct (decide (length slice < length sliceMins)%nat) as [Hshort|Hlong].
  { by rewrite isValidSlice_short in Hvalid. }
  apply Nat.nlt_ge in Hlong. split; [done|].
  rewrite isValidSlice_long_cases in Hvalid by done.
  rewrite isValidSlice_long_cases by (rewrite length_take_le; lia).
  rewrite take_idemp, drop_ge by (rewrite length_take_le; lia).
  case_bool_decide; [done|].
  destruct (cwiseLe sliceMins (take (length sliceMins) slice)); [|done].
  case_bool_decide; [|done].
  injection Hvalid as Hvalid. apply andb_true_iff in Hvalid as [-> _].
  reflexivity.
Qed.

Lemma isValidSlice_truncate_witness :
  (2 ≤ 4)%nat ∧
  isValidSlice (take 2 [3; 4; 0; 0]) [2; 2] [5; 5] = Return true.
Proof.
  apply (isValidSlice_truncate [3; 4; 0; 0] [2; 2] [5; 5]). reflexivity.
Defined.

(** A candidate that is below one of the lower bounds is rejected
    without a look at the upper bounds, whatever their length. *)
Theorem isValidSlice_below_lower (slice sliceMins sliceMaxs : VectorXi)
    (i : nat) :
  (length sliceMins ≤ length slice)%nat →
  (i < length sliceMins)%nat → slice !!! i < sliceMins !!! i →
  isValidSlice slice sliceMins sliceMaxs = Return false.
Proof.
  intros Hlong Hi Hbelow.
  rewrite isValidSlice_long_cases by done.
  rewrite bool_decide_eq_false_2 by lia.
  destruct (cwiseLe sliceMins (take (length sliceMins) slice)) eqn:Hlo;
    [|done].
  pose proof (proj1 (cwiseLe_head slice sliceMins Hlong) Hlo i Hi). lia.
Qed.

Lemma isValidSlice_below_lower_witness :
  isValidSlice [3; 1] [2; 2] [] = Return false.
Proof.
  apply (isValidSlice_below_lower [3; 1] [2; 2] [] 1); simpl; lia.
Defined.

(** Widening the bounds keeps an accepted candidate accepted. *)
Theorem isValidSlice_widen
    (slice sliceMins sliceMaxs sliceMins' sliceMaxs' : VectorXi) :
  length sliceMins = length sliceMaxs →
  length sliceMins' = length sliceMins →
  length sliceMaxs' = length sliceMins →
  (∀ i, (i < length sliceMins)%nat → sliceMins' !!! i ≤ sliceMins !!! i) →
  (∀ i, (i < length sliceMins)%nat → sliceMaxs !!! i ≤ sliceMaxs' !!! i) →
  isValidSlice slice sliceMins sliceMaxs = Return true →
  isValidSlice slice sliceMins' sliceMaxs' = Return true.
Proof.
  intros Hbounds Hmins' Hmaxs' Hlo Hhi Hvalid.
  destruct (decide (length slice < length sliceMins)%nat) as [Hshort|Hlong].
  { by rewrite isValidSlice_short in Hvalid. }
  apply Nat.nlt_ge in Hlong.
  rewrite isValidSlice_long in Hvalid by done.
  rewrite isValidSlice_long by lia. f_equal.
  injection Hvalid as Hvalid.
  apply andb_true_iff in Hvalid as [Hin Hzero].
  pose proof (proj1 (within_bounds_lookup _ _ _ Hbounds Hlong) Hin) as Hin'.
  apply andb_true_iff. split.
  - apply within_bounds_lookup; [lia..|].
    intros i Hi. rewrite Hmins' in Hi.
    specialize (Hin' i Hi). specialize (Hlo i Hi). specialize (Hhi i Hi). lia.
  - by rewrite Hmins'.
Qed.

Lemma isValidSlice_widen_witness :
  isValidSlice [3; 4; 0] [1; 0] [5; 9] = Return true.
Proof.
  apply (isValidSlice_widen [3; 4; 0] [2; 2] [5; 5] [1; 0] [5; 9]);
    try reflexivity.
  - intros [|[|i]] Hi; simpl in *; lia.
  - intros [|[|i]] Hi; simpl in *; lia.
Defined.

(** With bounds of equal length some candidate is accepted if and only
    if no lower bound exceeds its upper bound; the lower bounds are then
    such a candidate. *)
Theorem isValidSlice_satisfiable (sliceMins sliceMaxs : VectorXi) :
  length sliceMins = length sliceMaxs →
  ((∃ slice, isValidSlice slice sliceMins sliceMaxs = Return true)
     ↔ ∀ i, (i < length sliceMins)%nat → sliceMins !!! i ≤ sliceMaxs !!! i) ∧
  ((∀ i, (i < length sliceMins)%nat → sliceMins !!! i ≤ sliceMaxs !!! i) →
     isValidSlice sliceMins sliceMins sliceMaxs = Return true).
Proof.
  intros Hbounds.
  assert ((∀ i, (i < length sliceMins)%nat →
             sliceMins !!! i ≤ sliceMaxs !!! i) →
          isValidSlice sliceMins sliceMins sliceMaxs = Return true) as Hmins.
  { intros Hle. rewrite isValidSlice_long by done. f_equal.
    apply andb_true_iff. split.
    - apply within_bounds_lookup; [done..|].
      intros i Hi. specialize (Hle i Hi). lia.
    - by rewrite drop_all. }
  split; [split|done].
  - intros [slice Hvalid] i Hi.
    destruct (decide (length slice < length sliceMins)%nat) as [Hshort|Hlong].
    { by rewrite isValidSlice_short in Hvalid. }
    apply Nat.nlt_ge in Hlong.
    rewrite isValidSlice_long in Hvalid by done.
    injection Hvalid as Hvalid.
    apply andb_true_iff in Hvalid as [Hin _].
    pose proof (proj1 (within_bounds_lookup _ _ _ Hbounds Hlong) Hin i Hi).
    lia.
  - intros Hle. exists sliceMins. by apply Hmins.
Qed.

Lemma isValidSlice_satisfiable_witness :
  isValidSlice [2; 2] [2; 2] [5; 5] = Return true.
Proof.
  apply (isValidSlice_satisfiable [2; 2] [5; 5]); [reflexivity|].
  intros [|[|i]] Hi; simpl in *; lia.
Defined.

(** *** getDimensions and the overloads on arrays *)

Lemma to_int_range (z : Z) : int_min ≤ to_int z ≤ int_max.
Proof.
  unfold to_int, int_min, int_max.
  pose proof (Z.mod_pos_bound (z + 2 ^ 31) (2 ^ 32)). lia.
Qed.

Lemma to_int_congruent (z : Z) : (to_int z - z) `mod` 2 ^ 32 = 0.
Proof.
  unfold to_int. rewrite (Z.mod_eq (z + 2 ^ 31) (2 ^ 32)) by lia.
  replace (z + 2 ^ 31 - 2 ^ 32 * ((z + 2 ^ 31) `div` 2 ^ 32) - 2 ^ 31 - z)
    with (- ((z + 2 ^ 31) `div` 2 ^ 32) * 2 ^ 32) by lia.
  apply Z.mod_mul. lia.
Qed.

Lemma to_int_wrap (z k : Z) :
  int_min ≤ z ≤ int_max → to_int (z + k * 2 ^ 32) = z.
Proof.
  intros Hz. unfold to_int, int_min, int_max in *.
  replace (z + k * 2 ^ 32 + 2 ^ 31) with (z + 2 ^ 31 + k * 2 ^ 32) by lia.
  rewrite Z.mod_add by lia. rewrite Z.mod_small by lia. lia.
Qed.

(** Every element that getDimensions returns for a dense array is a
    value of type int that differs from the extent it was copied from by
    a multiple of 2^32. *)
Theorem getDimensions_elements (array : mxArray) :
  mxIsSparse array = false →
  ∃ v : VectorXi,
    getDimensions array = Return v ∧
    ∀ i, (i < length v)%nat →
      int_min ≤ v !!! i ≤ int_max ∧
      (v !!! i - mxGetDimensions array !!! i) `mod` 2 ^ 32 = 0.
Proof.
  intros Hdense. eexists. split; [by apply getDimensions_dense|].
  intros i Hi. rewrite length_fmap in Hi.
  rewrite list_lookup_total_alt, list_lookup_fmap.
  rewrite (list_lookup_lookup_total_lt _ i) by done. simpl.
  split; [apply to_int_range|apply to_int_congruent].
Qed.

Lemma getDimensions_elements_witness :
  ∃ v : VectorXi,
    getDimensions long_column = Return v ∧
    ∀ i, (i < length v)%nat →
      int_min ≤ v !!! i ≤ int_max ∧
      (v !!! i - mxGetDimensions long_column !!! i) `mod` 2 ^ 32 = 0.
Proof. apply (getDimensions_elements long_column). reflexivity. Defined.

(** The dimension vectors of two dense arrays with at least two axes
    each can always be merged by expandSlices: the call returns a shape
    with one element per axis beyond the second of the array with more
    axes. *)
Theorem getDimensions_expandSlices (arrayA arrayB : mxArray) :
  mxIsSparse arrayA = false → mxIsSparse arrayB = false →
  2 ≤ mxGetNumberOfDimensions arrayA → 2 ≤ mxGetNumberOfDimensions arrayB →
  ∃ v : VectorXi,
    (dimsA ← getDimensions arrayA; dimsB ← getDimensions arrayB;
     expandSlices dimsA dimsB) = Return v ∧
    size v = Z.max (mxGetNumberOfDimensions arrayA)
                   (mxGetNumberOfDimensions arrayB) - 2.
Proof.
  unfold mxGetNumberOfDimensions. intros HA HB HnA HnB.
  rewrite !getDimensions_dense by done. simpl.
  unfold expandSlices.
  rewrite !tail_strip_two by (rewrite length_fmap; lia). simpl.
  rewrite expandSliceDims_eq. eexists. split; [done|].
  unfold size.
  rewrite length_fmap, length_seq, !length_drop, !length_fmap. lia.
Qed.

Lemma getDimensions_expandSlices_witness :
  ∃ v : VectorXi,
    (dimsA ← getDimensions empty_matrix; dimsB ← getDimensions long_column;
     expandSlices dimsA dimsB) = Return v ∧
    size v = Z.max (mxGetNumberOfDimensions empty_matrix)
                   (mxGetNumberOfDimensions long_column) - 2.
Proof.
  apply (getDimensions_expandSlices empty_matrix long_column);
    first [reflexivity | by vm_compute].
Defined.

(** checkRows<r>(array) and checkCols<c>(array) on an array whose row
    and column counts are values of type int: the count is returned
    exactly when the expected count is the "any size" marker or equals it,
    and nothing else is ever returned. *)
Theorem checkRows_checkCols_array (expected : Z) (array : mxArray) :
  int_min ≤ mxGetM array ≤ int_max → int_min ≤ mxGetN array ≤ int_max →
  (checkRows_array expected array = Return (mxGetM array)
     ↔ expected = Dynamic ∨ expected = mxGetM array) ∧
  (∀ n, checkRows_array expected array = Return n → n = mxGetM array) ∧
  (checkCols_array expected array = Return (mxGetN array)
     ↔ expected = Dynamic ∨ expected = mxGetN array) ∧
  (∀ n, checkCols_array expected array = Return n → n = mxGetN array).
Proof.
  intros HM HN. unfold checkRows_array, checkCols_array, checkRows, checkCols.
  rewrite !to_int_in_range by done.
  split; [|split; [|split]].
  - destruct (decide (expected = Dynamic)) as [->|Hdyn].
    { rewrite bool_decide_eq_true_2 by done. simpl. split; auto. }
    rewrite (bool_decide_eq_false_2 (expected = Dynamic)) by done. simpl.
    case_bool_decide; split; try done; auto. intros [?|?]; done.
  - intros n. destruct (_ || _); [by intros [= <-]|done].
  - destruct (decide (expected = Dynamic)) as [->|Hdyn].
    { rewrite bool_decide_eq_true_2 by done. simpl. split; auto. }
    rewrite (bool_decide_eq_false_2 (expected = Dynamic)) by done. simpl.
    case_bool_decide; split; try done; auto. intros [?|?]; done.
  - intros n. destruct (_ || _); [by intros [= <-]|done].
Qed.

Lemma checkRows_checkCols_array_witness :
  checkRows_array 0 empty_matrix = Return (mxGetM empty_matrix)
  ↔ 0 = Dynamic ∨ 0 = mxGetM empty_matrix.
Proof.
  apply (checkRows_checkCols_array 0 empty_matrix); by vm_compute.
Defined.

(** The row count of an array is compared after its conversion to int:
    an array whose row count exceeds the expected count by a multiple of
    2^32 passes checkRows, which returns the expected count. *)
Theorem checkRows_array_wraps (r k : Z) (array : mxArray) :
  int_min ≤ r ≤ int_max → mxGetM array = r + k * 2 ^ 32 →
  checkRows_array r array = Return r.
Proof.
  intros Hr HM. unfold checkRows_array, checkRows.
  rewrite HM, to_int_wrap by done.
  rewrite (bool_decide_eq_true_2 (r = r)) by done.
  by rewrite orb_true_r.
Qed.

Lemma checkRows_array_wraps_witness :
  checkRows_array 0 {| mxGetClassID := mxINT8_CLASS; mxIsSparse := false;
                       mxGetDimensions := [4294967296; 1];
                       mxGetData := 140187732541440 |} = Return 0.
Proof.
  apply (checkRows_array_wraps 0 1); by vm_compute.
Defined.
